(** * outputmain.cpp: the arithmetic demo, embedded and verified

    The translation unit has three functions: [add], [sub] and [main].
    [double] values are IEEE 754 binary64 numbers, taken from the standard
    library's executable specification [SpecFloat] (53 bits of precision,
    round to nearest even).  [std::cout] is the text written so far; a
    function is a computation over that text which either returns or runs
    into undefined behaviour.  The [std::vector<int>] is a list read with
    stdpp's lookup, the [std::unordered_set<std::string>] a [gset string]. *)

From Stdlib Require Import ZArith Lia Ascii String DecimalString.
From Stdlib Require Import Floats.SpecFloat.
From stdpp Require Import gmap strings list.

Local Open Scope Z_scope.

(** ** The [double] type *)

Definition prec : Z := 53.
Definition emax : Z := 1024.

Definition double : Type := spec_float.

Definition double_add : double -> double -> double := SFadd prec emax.
Definition double_sub : double -> double -> double := SFsub prec emax.
Definition double_neg : double -> double := SFopp.
(** [operator==] on doubles: IEEE comparison, so [+0 == -0] holds and
    [NaN == NaN] does not. *)
Definition double_eq : double -> double -> bool := SFeqb.

(** Conversion [int -> double]; exact, an [int] has at most 32 bits. *)
Definition double_of_int (n : Z) : double := binary_normalize prec emax n 0 false.

(** A decimal literal [m]e[k] with [k <= 0], as the compiler reads it: the
    binary64 number nearest to [m / 10^(-k)].  Both operands of the division
    are exact here, so the quotient is the correctly rounded literal. *)
Definition double_lit (m : Z) (k : Z) : double :=
  SFdiv prec emax (double_of_int m) (double_of_int (10 ^ (- k))).

Definition zero : double := S754_zero false.
Definition DBL_MAX : double := SFmax_float prec emax.

Definition is_finite (x : double) : bool :=
  match x with
  | S754_zero _ | S754_finite _ _ _ => true
  | S754_infinity _ | S754_nan => false
  end.

(** A finite binary64 value: a zero, or a mantissa and exponent in the
    format's canonical range. *)
Definition finite64 (x : double) : bool :=
  is_finite x && valid_binary prec emax x.

(** ** Text conversion of [operator<<]

    With the stream's default flags a [double] is written as [printf]'s
    [%g] does at precision 6: round to six significant decimal digits; with
    [X] the decimal exponent of the rounded number, fixed notation if
    [-4 <= X < 6] and scientific notation otherwise; trailing zeros of the
    fraction are dropped, and the point with them if nothing is left. *)

Definition precision : Z := 6.

Definition nl : string := String (Ascii.ascii_of_nat 10) EmptyString.

Definition digits (n : Z) : string := NilZero.string_of_int (Z.to_int n).

Fixpoint zeros (k : nat) : string :=
  match k with
  | O => EmptyString
  | S k' => String "0"%char (zeros k')
  end.

(** [n] written with at least [w] digits. *)
Definition pad (w : Z) (n : Z) : string :=
  let s := digits n in
  zeros (Z.to_nat w - String.length s) +:+ s.

Fixpoint strip_zeros (s : string) : string :=
  match s with
  | EmptyString => EmptyString
  | String c r =>
      let r' := strip_zeros r in
      if (Ascii.eqb c "0"%char && String.eqb r' EmptyString)%bool then EmptyString
      else String c r'
  end.

(** The integer nearest to [n / d], ties to even ([0 <= n], [0 < d]). *)
Definition round_half_even (n d : Z) : Z :=
  let q := n / d in
  match 2 * (n mod d) ?= d with
  | Lt => q
  | Gt => q + 1
  | Eq => if Z.even q then q else q + 1
  end.

(** [n / d] times [10^k], as a fraction. *)
Definition scale10 (n d k : Z) : Z * Z :=
  if 0 <=? k then (n * 10 ^ k, d) else (n, d * 10 ^ (- k)).

(** [10^X <= n / d]. *)
Definition pow10_le (X n d : Z) : bool :=
  let '(n', d') := scale10 n d (- X) in d' <=? n'.

(** The decimal exponent of [n / d]: the [X] with
    [10^X <= n / d < 10^(X+1)], searched upwards from [lo]. *)
Fixpoint decimal_exponent_from (fuel : nat) (lo n d : Z) : Z :=
  match fuel with
  | O => lo
  | S fuel' =>
      if pow10_le (lo + 1) n d then decimal_exponent_from fuel' (lo + 1) n d
      else lo
  end.

(** Every positive binary64 number lies between [10^(-324)] and [10^309]. *)
Definition decimal_exponent (n d : Z) : Z :=
  decimal_exponent_from 640 (-325) n d.

(** Fixed notation with [k] decimals for [D / 10^k]. *)
Definition style_f (D k : Z) : string :=
  let frac := strip_zeros (pad k (D mod 10 ^ k)) in
  let int := digits (D / 10 ^ k) in
  if (k =? 0) || String.eqb frac EmptyString then int else int +:+ "." +:+ frac.

(** Scientific notation for [D / 10^k * 10^X], [D] of [k + 1] digits; the
    exponent has a sign and at least two digits. *)
Definition style_e (D k X : Z) : string :=
  let frac := strip_zeros (pad k (D mod 10 ^ k)) in
  let lead := digits (D / 10 ^ k) in
  let mant := if (k =? 0) || String.eqb frac EmptyString then lead
              else lead +:+ "." +:+ frac in
  mant +:+ "e" +:+ (if X <? 0 then "-" else "+") +:+ pad 2 (Z.abs X).

Definition fmt_g (P : Z) (n d : Z) : string :=
  let X0 := decimal_exponent n d in
  let '(n', d') := scale10 n d (P - 1 - X0) in
  let D0 := round_half_even n' d' in
  let '(D, X) := if 10 ^ P <=? D0 then (D0 / 10, X0 + 1) else (D0, X0) in
  if (-4 <=? X) && (X <? P) then style_f D (P - 1 - X)
  else style_e D (P - 1) X.

Definition fmt_sign (s : bool) : string := if s then "-" else EmptyString.

Definition fmt_double (x : double) : string :=
  match x with
  | S754_nan => "nan"
  | S754_infinity s => fmt_sign s +:+ "inf"
  | S754_zero s => fmt_sign s +:+ "0"
  | S754_finite s m e =>
      fmt_sign s +:+
      (if 0 <=? e then fmt_g precision (Z.pos m * 2 ^ e) 1
       else fmt_g precision (Z.pos m) (2 ^ (- e)))
  end.

(** An [int] is written in decimal. *)
Definition fmt_int (n : Z) : string := digits n.

(** ** Computations over [std::cout] *)

(** The characters written to [std::cout] so far. *)
Definition ostream : Type := string.

Inductive outcome (A : Type) : Type :=
| Returns (v : A) (out : ostream)
| Undefined.
Arguments Returns {A} v out.
Arguments Undefined {A}.

Definition cpp (A : Type) : Type := ostream -> outcome A.

#[global] Instance cpp_ret : MRet cpp := fun A v out => Returns v out.

#[global] Instance cpp_bind : MBind cpp := fun A B k c out =>
  match c out with
  | Returns v out' => k v out'
  | Undefined => Undefined
  end.

Definition undefined {A} : cpp A := fun _ => Undefined.

Definition write (s : string) : cpp unit := fun out => Returns tt (out +:+ s).

(** [std::cout << x] for a [double] and for an [int], and [std::endl]. *)
Definition cout_double (x : double) : cpp unit := write (fmt_double x).
Definition cout_int (n : Z) : cpp unit := write (fmt_int n).
Definition endl : cpp unit := write nl.

(** [v[i]] on a [std::vector]: no bounds check, an index past the end is
    undefined behaviour. *)
Definition subscript {A} (v : list A) (i : nat) : cpp A :=
  match v !! i with
  | Some x => mret x
  | None => undefined
  end.

(** [s.clear()] on a [std::unordered_set]. *)
Definition clear (s : gset string) : gset string := ∅.

(** ** The program *)

(** The local variables of [add] when it returns, next to its result. *)
Record add_frame : Type := {
  frame_t : list Z;
  frame_s : gset string;
  frame_ret : double
}.

Definition add_body (val_a val_b : double) : cpp add_frame :=
  let t : list Z := [1; 2; 3] in
  e ← subscript t 1;
  cout_int e;;
  endl;;
  let s : gset string := {[ "a"; "b"; "c" ]} in
  let s := clear s in
  mret {| frame_t := t; frame_s := s; frame_ret := double_add val_a val_b |}.

Definition add (val_a val_b : double) : cpp double :=
  fr ← add_body val_a val_b;
  mret (frame_ret fr).

Definition sub (val_a val_b : double) : cpp double :=
  mret (double_sub val_a val_b).

Definition main (argc : Z) (argv : list string) : cpp Z :=
  x ← add (double_lit 11 (-1)) (double_lit 24 (-1));
  cout_double x;;
  endl;;
  let a : double := double_lit 32 (-1) in
  let b : Z := 5 in
  y ← add a (double_of_int b);
  cout_double y;;
  endl;;
  d1 ← sub a (double_of_int b);
  d2 ← sub (double_of_int b) a;
  z ← add d1 d2;
  cout_double z;;
  endl;;
  mret 0.

(** The expression [add(sub(a, b), sub(b, a))] that [main] evaluates for its
    third result, at arbitrary operands.  The order in which the two
    arguments are evaluated is unspecified; it is immaterial as [sub] writes
    nothing. *)
Definition add_sub_sub (a b : double) : cpp double :=
  d1 ← sub a b;
  d2 ← sub b a;
  add d1 d2.

(** Lines of text, each ended by a newline. *)
Fixpoint unlines (ls : list string) : string :=
  match ls with
  | [] => EmptyString
  | l :: ls' => l +:+ nl +:+ unlines ls'
  end.

(** The number of lines written: [std::endl] ends each one. *)
Fixpoint count_lines (s : string) : nat :=
  match s with
  | EmptyString => O
  | String c r => ((if Ascii.eqb c (Ascii.ascii_of_nat 10) then 1 else 0) + count_lines r)%nat
  end.

(** [c] returns [v] and appends exactly [s] to what was written before. *)
Definition prints {A} (c : cpp A) (v : A) (s : string) : Prop :=
  forall out, c out = Returns v (out +:+ s).

(** * Binary64 arithmetic *)

Section Rounding.

(** The sign of the operand only ends up in the sign of the result:
    rounding to nearest even is symmetric. *)
Lemma binary_round_aux_negb s mx ex lx :
  binary_round_aux prec emax (negb s) mx ex lx
  = SFopp (binary_round_aux prec emax s mx ex lx).
Proof.
  unfold binary_round_aux.
  destruct (shr_fexp prec emax mx ex lx) as [mrs' e'].
  destruct (shr_fexp prec emax _ e' loc_Exact) as [mrs'' e''].
  destruct (shr_m mrs''); [reflexivity | | reflexivity].
  destruct (e'' <=? emax - prec); reflexivity.
Qed.

Lemma binary_round_negb s m e :
  binary_round prec emax (negb s) m e = SFopp (binary_round prec emax s m e).
Proof.
  unfold binary_round.
  destruct (shl_align m e _) as [mz ez].
  apply binary_round_aux_negb.
Qed.

Lemma binary_normalize_opp m e :
  m <> 0 ->
  binary_normalize prec emax (- m) e false
  = SFopp (binary_normalize prec emax m e false).
Proof.
  destruct m as [|p|p]; intros Hm; [congruence | |].
  - apply (binary_round_negb false).
  - apply (binary_round_negb true).
Qed.

(** Shifting right keeps a mantissa non-negative. *)
Lemma shr_1_nonneg mrs : 0 <= shr_m mrs -> 0 <= shr_m (shr_1 mrs).
Proof.
  destruct mrs as [m r t]; simpl.
  destruct m as [|[p|p|]|[p|p|]]; simpl; lia.
Qed.

Lemma iter_shr_1_nonneg p : forall mrs,
  0 <= shr_m mrs -> 0 <= shr_m (SpecFloat.iter_pos shr_1 p mrs).
Proof.
  induction p as [p IH|p IH|]; intros mrs H; simpl.
  - apply IH, IH, shr_1_nonneg, H.
  - apply IH, IH, H.
  - apply shr_1_nonneg, H.
Qed.

Lemma shr_fexp_nonneg m e l :
  0 <= m -> 0 <= shr_m (fst (shr_fexp prec emax m e l)).
Proof.
  intros Hm. unfold shr_fexp, shr.
  assert (H0 : 0 <= shr_m (shr_record_of_loc m l))
    by (destruct l as [|[]]; exact Hm).
  destruct (fexp prec emax (Zdigits2 m + e) - e); simpl;
    [exact H0 | apply iter_shr_1_nonneg, H0 | exact H0].
Qed.

Lemma round_nearest_even_nonneg m l : 0 <= m -> 0 <= round_nearest_even m l.
Proof.
  intros Hm. destruct l as [|[]]; simpl; try lia.
  destruct (Z.even m); lia.
Qed.

Lemma binary_round_aux_not_nan s mx ex lx :
  0 <= mx -> binary_round_aux prec emax s mx ex lx <> S754_nan.
Proof.
  intros Hm. unfold binary_round_aux.
  pose proof (shr_fexp_nonneg mx ex lx Hm) as H1.
  destruct (shr_fexp prec emax mx ex lx) as [mrs' e']; simpl in H1.
  pose proof (shr_fexp_nonneg _ e' loc_Exact
                (round_nearest_even_nonneg _ (loc_of_shr_record mrs') H1)) as H2.
  destruct (shr_fexp prec emax _ e' loc_Exact) as [mrs'' e'']; simpl in H2.
  destruct (shr_m mrs''); [discriminate | | lia].
  destruct (e'' <=? emax - prec); discriminate.
Qed.

Lemma binary_normalize_not_nan m e sz :
  binary_normalize prec emax m e sz <> S754_nan.
Proof.
  destruct m as [|p|p]; simpl; [discriminate | |];
    unfold binary_round; destruct (shl_align p e _) as [mz ez];
    apply binary_round_aux_not_nan; lia.
Qed.

End Rounding.

Section Arithmetic.

Lemma SFopp_involutive x : SFopp (SFopp x) = x.
Proof. destruct x as [s|s| |s m e]; simpl; rewrite ?negb_involutive; reflexivity. Qed.

Lemma double_eq_refl x : x <> S754_nan -> double_eq x x = true.
Proof.
  unfold double_eq, SFeqb.
  destruct x as [s|s| |s m e]; intros Hx; simpl;
    [reflexivity | destruct s; reflexivity | congruence |].
  rewrite Z.compare_refl, Pos.compare_cont_refl.
  destruct s; reflexivity.
Qed.

Lemma shl_align_same m e : shl_align m e e = (m, e).
Proof. unfold shl_align. rewrite Z.sub_diag. reflexivity. Qed.

(** IEEE addition is commutative on every pair of operands. *)
Lemma double_add_comm x y : double_add x y = double_add y x.
Proof.
  unfold double_add.
  destruct x as [sx|sx| |sx mx ex], y as [sy|sy| |sy my ey];
    try reflexivity; try (destruct sx, sy; reflexivity).
  unfold SFadd. rewrite (Z.min_comm ey ex).
  f_equal. apply Z.add_comm.
Qed.

Lemma double_add_not_nan x y :
  is_finite x = true -> is_finite y = true -> double_add x y <> S754_nan.
Proof.
  unfold double_add.
  destruct x as [sx|sx| |sx mx ex], y as [sy|sy| |sy my ey];
    try discriminate; intros _ _.
  - destruct sx, sy; discriminate.
  - apply binary_normalize_not_nan.
Qed.

Lemma double_sub_not_nan x y :
  is_finite x = true -> is_finite y = true -> double_sub x y <> S754_nan.
Proof.
  unfold double_sub.
  destruct x as [sx|sx| |sx mx ex], y as [sy|sy| |sy my ey];
    try discriminate; intros _ _.
  - destruct sx, sy; discriminate.
  - apply binary_normalize_not_nan.
Qed.

(** Swapping the operands of a subtraction negates the result, except
    that equal operands give [+0] both ways. *)
Lemma double_sub_swap x y :
  is_finite x = true -> is_finite y = true ->
  double_sub y x = double_neg (double_sub x y)
  \/ (double_sub x y = zero /\ double_sub y x = zero).
Proof.
  unfold double_sub, double_neg, zero.
  destruct x as [sx|sx| |sx mx ex], y as [sy|sy| |sy my ey];
    try discriminate; intros _ _.
  - destruct sx, sy; simpl; auto.
  - left. simpl. rewrite negb_involutive. reflexivity.
  - left. reflexivity.
  - unfold SFsub. rewrite (Z.min_comm ey ex).
    set (cx := cond_Zopp sx _). set (cy := cond_Zopp sy _).
    destruct (Z.eq_dec (cx - cy) 0) as [H0|H0].
    + right. rewrite H0. replace (cy - cx) with 0 by lia. split; reflexivity.
    + left. replace (cy - cx) with (- (cx - cy)) by lia.
      apply binary_normalize_opp, H0.
Qed.

(** A finite number and its negation add up to [+0]. *)
Lemma double_add_neg d :
  is_finite d = true -> double_add d (double_neg d) = zero.
Proof.
  unfold double_add, double_neg, zero.
  destruct d as [s|s| |s m e]; try discriminate; intros _.
  - destruct s; reflexivity.
  - unfold SFadd, SFopp. rewrite Z.min_id, shl_align_same.
    replace (cond_Zopp s _ + cond_Zopp (negb s) _) with 0
      by (destruct s; simpl; lia).
    reflexivity.
Qed.

End Arithmetic.

(** * Running the functions *)

Section Runs.

Lemma app_empty_r (s : string) : s +:+ EmptyString = s.
Proof.
  induction s as [|c s IH]; [reflexivity |].
  exact (f_equal (String c) IH).
Qed.

Lemma app_assoc (s1 s2 s3 : string) : (s1 +:+ s2) +:+ s3 = s1 +:+ (s2 +:+ s3).
Proof.
  induction s1 as [|c s1 IH]; [reflexivity |].
  exact (f_equal (String c) IH).
Qed.

Lemma prints_ret {A} (v : A) : prints (mret v) v EmptyString.
Proof. intros out. now rewrite app_empty_r. Qed.

Lemma prints_write s : prints (write s) tt s.
Proof. intros out. reflexivity. Qed.

Lemma prints_bind {A B} (c : cpp A) (k : A -> cpp B) v w s1 s2 :
  prints c v s1 -> prints (k v) w s2 -> prints (c ≫= k) w (s1 +:+ s2).
Proof.
  intros Hc Hk out. unfold mbind, cpp_bind.
  now rewrite Hc, Hk, app_assoc.
Qed.

Lemma prints_text {A} (c : cpp A) v s s' : prints c v s -> s = s' -> prints c v s'.
Proof. now intros H <-. Qed.

Lemma prints_returns {A} (c : cpp A) v v' s out out' :
  prints c v s -> c out = Returns v' out' -> v' = v /\ out' = out +:+ s.
Proof. intros H Hrun. rewrite H in Hrun. now injection Hrun as <- <-. Qed.

End Runs.

Create HintDb prints.

#[export] Hint Resolve prints_ret prints_write : prints.

(** Runs a straight-line body: each call and each write in sequence, the
    calls by the lemmas of the [prints] database. *)
Ltac run_body :=
  repeat first [ solve [auto with prints nocore] | eapply prints_bind ].

Section Functions.

Lemma prints_add_body val_a val_b :
  prints (add_body val_a val_b)
    {| frame_t := [1; 2; 3]; frame_s := ∅;
       frame_ret := double_add val_a val_b |}
    (unlines ["2"]).
Proof.
  unfold add_body, subscript, cout_int, endl, clear; cbn [lookup list_lookup].
  eapply prints_text; [run_body | reflexivity].
Qed.
Hint Resolve prints_add_body : prints.

Lemma prints_add val_a val_b :
  prints (add val_a val_b) (double_add val_a val_b) (unlines ["2"]).
Proof.
  unfold add.
  eapply prints_text; [run_body | reflexivity].
Qed.

Lemma prints_sub val_a val_b :
  prints (sub val_a val_b) (double_sub val_a val_b) EmptyString.
Proof. apply prints_ret. Qed.

Hint Resolve prints_add prints_sub : prints.

Lemma prints_add_sub_sub a b :
  prints (add_sub_sub a b)
    (double_add (double_sub a b) (double_sub b a)) (unlines ["2"]).
Proof.
  unfold add_sub_sub.
  eapply prints_text; [run_body | reflexivity].
Qed.

Lemma prints_main argc argv :
  prints (main argc argv) 0 (unlines ["2"; "3.5"; "2"; "8.2"; "2"; "0"]).
Proof.
  unfold main, cout_double, endl; cbv zeta.
  eapply prints_text.
  - run_body.
  - vm_compute. reflexivity.
Qed.

End Functions.

(** The literals of [main] are the binary64 numbers a compiler produces for
    them: [0x3FF199999999999A], [0x4003333333333333], [0x400999999999999A]. *)
Example double_lit_1_1 :
  double_lit 11 (-1) = S754_finite false 0x1199999999999A (-52).
Proof. vm_compute. reflexivity. Qed.

Example double_lit_2_4 :
  double_lit 24 (-1) = S754_finite false 0x13333333333333 (-51).
Proof. vm_compute. reflexivity. Qed.

Example double_lit_3_2 :
  double_lit 32 (-1) = S754_finite false 0x1999999999999A (-51).
Proof. vm_compute. reflexivity. Qed.

Example double_of_int_5 : double_of_int 5 = S754_finite false 0x14000000000000 (-50).
Proof. vm_compute. reflexivity. Qed.

(** The text conversion at the borders of its two notations. *)
Example fmt_double_samples :
  map fmt_double
    [double_lit 11 (-1); double_of_int 100000; double_of_int 999999;
     double_of_int 1000000; double_lit 9999995 (-1); double_lit 1234565 (-1);
     double_lit 1 (-4); double_lit 1 (-5); double_of_int (-7);
     DBL_MAX; S754_finite false 1 (-1074); S754_zero true;
     S754_infinity true; S754_nan]
  = ["1.1"; "100000"; "999999"; "1e+06"; "1e+06"; "123456"; "0.0001"; "1e-05";
     "-7"; "1.79769e+308"; "4.94066e-324"; "-0"; "-inf"; "nan"].
Proof. vm_compute. reflexivity. Qed.

(** The three values [main] computes. *)
Example main_values :
  double_add (double_lit 11 (-1)) (double_lit 24 (-1))
    = S754_finite false 0x1C000000000000 (-51)
  /\ double_add (double_lit 32 (-1)) (double_of_int 5)
    = S754_finite false 0x10666666666666 (-49)
  /\ double_sub (double_lit 32 (-1)) (double_of_int 5)
    = S754_finite true 0x1CCCCCCCCCCCCC (-52)
  /\ double_add (double_sub (double_lit 32 (-1)) (double_of_int 5))
                (double_sub (double_of_int 5) (double_lit 32 (-1)))
    = S754_zero false.
Proof. vm_compute. repeat split. Qed.

(** The operands [DBL_MAX] and [-DBL_MAX]: both differences overflow. *)
Example add_sub_sub_overflow :
  double_sub DBL_MAX (double_neg DBL_MAX) = S754_infinity false
  /\ double_sub (double_neg DBL_MAX) DBL_MAX = S754_infinity true
  /\ add_sub_sub DBL_MAX (double_neg DBL_MAX) EmptyString
     = Returns S754_nan (unlines ["2"]).
Proof. vm_compute. repeat split. Qed.

(** The two arguments of the outer call can be evaluated in either order. *)
Lemma add_sub_sub_order a b :
  (d2 ← sub b a; d1 ← sub a b; add d1 d2) = add_sub_sub a b.
Proof. reflexivity. Qed.

(** * The properties of the program *)

Definition lit_1_1 : double := double_lit 11 (-1).
Definition lit_2_4 : double := double_lit 24 (-1).
Definition lit_3_2 : double := double_lit 32 (-1).

(** C1, as stated, fails: the run does not print four lines.  Each of the
    three calls of [add] writes its own line, so six lines come out. *)
Lemma main_does_not_print_four_lines :
  ~ (exists out, main 0 [] EmptyString = Returns 0 out /\ count_lines out = 4%nat).
Proof.
  intros (out & Hrun & Hcount).
  destruct (prints_returns _ _ _ _ _ _ (prints_main 0 []) Hrun) as [_ ->].
  vm_compute in Hcount. discriminate Hcount.
Qed.

(** C1, amended: a full run prints exactly six lines in a fixed order,
    [2], [3.5], [2], [8.2], [2], [0]: the three numeric results, [3.5] from
    [add(1.1, 2.4)], [8.2] from [add(3.2, 5)] and [0] from
    [add(sub(a, b), sub(b, a))], each written right after the call that
    computes it returns and each preceded by the line [2] which that call of
    [add] writes. *)
Theorem main_prints_six_lines (argc : Z) (argv : list string) :
  exists x y z : double,
    prints (add lit_1_1 lit_2_4) x (unlines ["2"])
    /\ prints (add lit_3_2 (double_of_int 5)) y (unlines ["2"])
    /\ prints (add_sub_sub lit_3_2 (double_of_int 5)) z (unlines ["2"])
    /\ main argc argv EmptyString
       = Returns 0 (unlines ["2"; fmt_double x; "2"; fmt_double y; "2"; fmt_double z])
    /\ fmt_double x = "3.5" /\ fmt_double y = "8.2" /\ fmt_double z = "0"
    /\ count_lines (unlines ["2"; fmt_double x; "2"; fmt_double y; "2"; fmt_double z])
       = 6%nat.
Proof.
  eexists _, _, _.
  split; [apply prints_add |].
  split; [apply prints_add |].
  split; [apply prints_add_sub_sub |].
  split; [rewrite (prints_main argc argv EmptyString) |];
    repeat apply conj; vm_compute; reflexivity.
Qed.

(** C2, as stated, fails: the two differences of [DBL_MAX] and [-DBL_MAX]
    overflow to [+inf] and [-inf], and their sum is NaN, which is not equal
    to 0. *)
Lemma cancellation_fails_on_overflow :
  ~ (forall a b : double,
       finite64 a = true -> finite64 b = true ->
       forall out, exists r out',
         add_sub_sub a b out = Returns r out' /\ double_eq r zero = true).
Proof.
  intros H.
  assert (Hmax : finite64 DBL_MAX = true) by (vm_compute; reflexivity).
  assert (Hmin : finite64 (double_neg DBL_MAX) = true) by (vm_compute; reflexivity).
  destruct (H DBL_MAX (double_neg DBL_MAX) Hmax Hmin EmptyString)
    as (r & out' & Hrun & Heq).
  destruct (prints_returns _ _ _ _ _ _ (prints_add_sub_sub _ _) Hrun) as [-> _].
  vm_compute in Heq. discriminate Heq.
Qed.

(** C2, amended: for every pair of finite binary64 values [a] and [b] whose
    difference [a - b] is finite (does not overflow),
    [add(sub(a, b), sub(b, a))] returns a value equal to 0. *)
Theorem cancellation_without_overflow (a b : double) :
  finite64 a = true -> finite64 b = true ->
  is_finite (double_sub a b) = true ->
  forall out, exists r out',
    add_sub_sub a b out = Returns r out' /\ double_eq r zero = true.
Proof.
  intros Ha Hb Hd out.
  apply andb_prop in Ha as [Ha _]. apply andb_prop in Hb as [Hb _].
  eexists _, _. split; [apply prints_add_sub_sub |].
  destruct (double_sub_swap a b Ha Hb) as [-> | [-> ->]].
  - rewrite (double_add_neg _ Hd). reflexivity.
  - reflexivity.
Qed.

(** The cancellation at the operands of [main], [a = 3.2] and [b = 5]. *)
Lemma cancellation_without_overflow_witness :
  finite64 lit_3_2 = true /\ finite64 (double_of_int 5) = true
  /\ is_finite (double_sub lit_3_2 (double_of_int 5)) = true
  /\ exists r out',
       add_sub_sub lit_3_2 (double_of_int 5) EmptyString = Returns r out'
       /\ double_eq r zero = true.
Proof.
  split; [vm_compute; reflexivity |].
  split; [vm_compute; reflexivity |].
  split; [vm_compute; reflexivity |].
  apply (cancellation_without_overflow lit_3_2 (double_of_int 5));
    vm_compute; reflexivity.
Defined.

(** C3: [add] returns exactly the floating-point sum of its operands, for
    every pair of binary64 values and so for every pair of finite ones; the
    vector and the set it builds on the way do not reach the returned
    value, whatever was written before the call. *)
Theorem add_returns_sum (x y : double) (out : ostream) :
  (exists out', add x y out = Returns (double_add x y) out')
  /\ (forall fr out', add_body x y out = Returns fr out' ->
        frame_ret fr = double_add x y)
  /\ (forall r out', add x y out = Returns r out' -> r = double_add x y).
Proof.
  split; [eexists; apply prints_add |].
  split.
  - intros fr out' Hrun.
    destruct (prints_returns _ _ _ _ _ _ (prints_add_body x y) Hrun) as [-> _].
    reflexivity.
  - intros r out' Hrun.
    exact (proj1 (prints_returns _ _ _ _ _ _ (prints_add x y) Hrun)).
Qed.

(** C4: [sub] returns exactly the floating-point difference [a - b], for
    every pair of binary64 values and so for every pair of finite ones; it
    leaves what was written to standard output as it was, and it never runs
    into undefined behaviour. *)
Theorem sub_returns_difference (a b : double) (out : ostream) :
  sub a b out = Returns (double_sub a b) out
  /\ sub a b out <> Undefined.
Proof. split; [reflexivity | discriminate]. Qed.

(** C5: for finite binary64 values [x] and [y], [add(x, y) == add(y, x)]
    and [sub(x, y) == -sub(y, x)], with [==] the comparison of the
    language. *)
Theorem add_commutes_sub_antisymmetric (x y : double) :
  finite64 x = true -> finite64 y = true ->
  (exists r1 r2,
     prints (add x y) r1 (unlines ["2"]) /\ prints (add y x) r2 (unlines ["2"])
     /\ double_eq r1 r2 = true)
  /\ (exists s1 s2,
        prints (sub x y) s1 EmptyString /\ prints (sub y x) s2 EmptyString
        /\ double_eq s1 (double_neg s2) = true).
Proof.
  intros Hx Hy.
  apply andb_prop in Hx as [Hx _]. apply andb_prop in Hy as [Hy _].
  split.
  - exists (double_add x y), (double_add y x).
    split; [apply prints_add |]. split; [apply prints_add |].
    rewrite (double_add_comm y x).
    apply double_eq_refl, double_add_not_nan; assumption.
  - exists (double_sub x y), (double_sub y x).
    split; [apply prints_sub |]. split; [apply prints_sub |].
    destruct (double_sub_swap x y Hx Hy) as [-> | [-> ->]].
    + unfold double_neg. rewrite SFopp_involutive.
      apply double_eq_refl, double_sub_not_nan; assumption.
    + reflexivity.
Qed.

(** Both symmetries at the operands [1.1] and [2.4]. *)
Lemma add_commutes_sub_antisymmetric_witness :
  finite64 lit_1_1 = true /\ finite64 lit_2_4 = true
  /\ (exists r1 r2,
        prints (add lit_1_1 lit_2_4) r1 (unlines ["2"])
        /\ prints (add lit_2_4 lit_1_1) r2 (unlines ["2"])
        /\ double_eq r1 r2 = true)
  /\ (exists s1 s2,
        prints (sub lit_1_1 lit_2_4) s1 EmptyString
        /\ prints (sub lit_2_4 lit_1_1) s2 EmptyString
        /\ double_eq s1 (double_neg s2) = true).
Proof.
  split; [vm_compute; reflexivity |].
  split; [vm_compute; reflexivity |].
  apply (add_commutes_sub_antisymmetric lit_1_1 lit_2_4);
    vm_compute; reflexivity.
Defined.

(** C6: every run of [main] returns 0: from any argument vector and any
    state of standard output it returns, the value returned is 0, and there
    is no run that ends otherwise. *)
Theorem main_returns_zero (argc : Z) (argv : list string) (out : ostream) :
  (exists out', main argc argv out = Returns 0 out')
  /\ (forall r out', main argc argv out = Returns r out' -> r = 0)
  /\ main argc argv out <> Undefined.
Proof.
  pose proof (prints_main argc argv out) as Hrun.
  split; [eexists; exact Hrun |].
  split; [intros r out' H | intros H]; rewrite Hrun in H.
  - now injection H as <- _.
  - discriminate H.
Qed.

(** C7: [main] accepts and ignores its argument vector: two invocations
    with any arguments, possibly different ones, both return, with the same
    exit code and the same text written to standard output. *)
Theorem main_ignores_arguments
    (argc argc' : Z) (argv argv' : list string) (out : ostream) :
  main argc argv out = main argc' argv' out
  /\ exists (code : Z) (text : string),
       main argc argv out = Returns code (out +:+ text)
       /\ main argc' argv' out = Returns code (out +:+ text).
Proof.
  split; [reflexivity |].
  eexists _, _. split; apply prints_main.
Qed.

(** C8, as stated, fails: [add] does write to standard output, so a call
    does not leave the output as it found it. *)
Lemma add_writes_to_cout :
  ~ (forall (x y : double) (out : ostream),
       exists r, add x y out = Returns r out).
Proof.
  intros H. destruct (H zero zero EmptyString) as [r Hrun].
  destruct (prints_returns _ _ _ _ _ _ (prints_add zero zero) Hrun) as [_ Hout].
  discriminate Hout.
Qed.

(** C8, amended: the one effect of [add] besides computing its return
    value is that it appends the single line [2] to standard output: for
    all operands it returns, and the output afterwards is the output before
    the call followed by that line. *)
Theorem add_appends_one_line (x y : double) (out : ostream) :
  exists r, add x y out = Returns r (out +:+ "2" +:+ nl).
Proof. exists (double_add x y). apply prints_add. Qed.

(** C9: every call of [add], whatever its arguments, writes exactly one
    line, [2], the second element of its vector [{1, 2, 3}], before it
    returns; [main] calls [add] three times, so a run writes the line [2]
    three times, once before each numeric result. *)
Theorem add_prints_two_on_every_call :
  (forall x y : double,
     exists fr,
       prints (add_body x y) fr (unlines [fmt_int 2])
       /\ frame_t fr = [1; 2; 3] /\ frame_t fr !! 1%nat = Some 2
       /\ prints (add x y) (frame_ret fr) (unlines ["2"]))
  /\ count_lines (unlines ["2"]) = 1%nat
  /\ (forall argc argv,
        prints (main argc argv) 0
          (unlines ["2"; "3.5"; "2"; "8.2"; "2"; "0"])).
Proof.
  split; [| split; [reflexivity | exact prints_main]].
  intros x y. eexists. split; [apply prints_add_body |].
  split; [reflexivity |]. split; [reflexivity | apply prints_add].
Qed.

(** C10: the container accesses of [add] are safe for all inputs: the
    vector has exactly three elements, so [t[1]] is within bounds; the set
    is built and cleared without failing; and [add] never runs into the
    undefined behaviour of an access out of bounds. *)
Theorem add_container_accesses_safe (x y : double) (out : ostream) :
  (exists fr out',
     add_body x y out = Returns fr out'
     /\ length (frame_t fr) = 3%nat
     /\ (1 < length (frame_t fr))%nat
     /\ is_Some (frame_t fr !! 1%nat)
     /\ frame_s fr = ∅)
  /\ add_body x y out <> Undefined
  /\ add x y out <> Undefined.
Proof.
  split.
  - eexists _, _. split; [apply prints_add_body |].
    cbn. repeat split; [lia | eauto].
  - split; intros H.
    + rewrite (prints_add_body x y out) in H. discriminate H.
    + rewrite (prints_add x y out) in H. discriminate H.
Qed.

(** * Further properties of [add], [sub] and [main] *)

Section Edges.

(** Negating both operands of an addition negates the sum, except that a
    sum that cancels exactly is [+0] both ways. *)
Lemma double_add_neg_neg x y :
  is_finite x = true -> is_finite y = true ->
  double_add (double_neg x) (double_neg y) = double_neg (double_add x y)
  \/ (double_add x y = zero /\ double_add (double_neg x) (double_neg y) = zero).
Proof.
  unfold double_add, double_neg, zero.
  destruct x as [sx|sx| |sx mx ex], y as [sy|sy| |sy my ey];
    try discriminate; intros _ _.
  - destruct sx, sy; simpl; auto.
  - left. reflexivity.
  - left. reflexivity.
  - unfold SFadd, SFopp.
    set (cx := Z.pos (fst (shl_align mx ex (Z.min ex ey)))).
    set (cy := Z.pos (fst (shl_align my ey (Z.min ex ey)))).
    destruct (Z.eq_dec (cond_Zopp sx cx + cond_Zopp sy cy) 0) as [H0|H0].
    + right. rewrite H0.
      replace (cond_Zopp (negb sx) cx + cond_Zopp (negb sy) cy) with 0
        by (destruct sx, sy; simpl in *; lia).
      split; reflexivity.
    + left.
      replace (cond_Zopp (negb sx) cx + cond_Zopp (negb sy) cy)
        with (- (cond_Zopp sx cx + cond_Zopp sy cy))
        by (destruct sx, sy; simpl; lia).
      apply binary_normalize_opp, H0.
Qed.



Lemma double_add_nan_iff x y :
  double_add x y = S754_nan <->
  x = S754_nan \/ y = S754_nan
  \/ exists s, x = S754_infinity s /\ y = S754_infinity (negb s).
Proof.
  unfold double_add. split.
  - destruct x as [sx|sx| |sx mx ex], y as [sy|sy| |sy my ey];
      intros H; auto; try discriminate H.
    + destruct sx, sy; discriminate H.
    + right; right. exists sx. destruct sx, sy; try discriminate H; auto.
    + now apply binary_normalize_not_nan in H.
  - intros [-> | [-> | (s & -> & ->)]];
      [reflexivity | destruct x; reflexivity | destruct s; reflexivity].
Qed.

Lemma double_sub_nan_iff x y :
  double_sub x y = S754_nan <->
  x = S754_nan \/ y = S754_nan
  \/ exists s, x = S754_infinity s /\ y = S754_infinity s.
Proof.
  unfold double_sub. split.
  - destruct x as [sx|sx| |sx mx ex], y as [sy|sy| |sy my ey];
      intros H; auto; try discriminate H.
    + destruct sx, sy; discriminate H.
    + right; right. exists sx. destruct sx, sy; try discriminate H; auto.
    + now apply binary_normalize_not_nan in H.
  - intros [-> | [-> | (s & -> & ->)]];
      [reflexivity | destruct x; reflexivity | destruct s; reflexivity].
Qed.

Lemma double_eq_irrefl_iff r : double_eq r r = false <-> r = S754_nan.
Proof.
  split; [| intros ->; reflexivity].
  intros H. destruct r as [s|s| |s m e]; [| | reflexivity |];
    rewrite double_eq_refl in H; discriminate.
Qed.

End Edges.

(** X1: [add] returns NaN exactly when an operand is NaN or the operands
    are infinities of opposite signs; NaN is the one value it returns that
    does not compare equal to itself. *)
Theorem add_nan_iff (x y : double) :
  exists r,
    prints (add x y) r (unlines ["2"])
    /\ (r = S754_nan <->
        x = S754_nan \/ y = S754_nan
        \/ exists s, x = S754_infinity s /\ y = S754_infinity (negb s))
    /\ (double_eq r r = false <-> r = S754_nan).
Proof.
  exists (double_add x y).
  split; [apply prints_add |].
  split; [apply double_add_nan_iff | apply double_eq_irrefl_iff].
Qed.

(** X2: [sub] returns NaN exactly when an operand is NaN or the operands
    are infinities of the same sign. *)
Theorem sub_nan_iff (a b : double) (out : ostream) :
  exists r,
    sub a b out = Returns r out
    /\ (r = S754_nan <->
        a = S754_nan \/ b = S754_nan
        \/ exists s, a = S754_infinity s /\ b = S754_infinity s).
Proof.
  exists (double_sub a b). split; [reflexivity | apply double_sub_nan_iff].
Qed.



(** X5: for finite [a] and [b] the expression [add(sub(a, b), sub(b, a))]
    has exactly two values: [+0] when [a - b] is finite, and NaN when
    [a - b] overflows; so it equals 0 if and only if [a - b] does not
    overflow. *)
Theorem cancellation_dichotomy (a b : double) :
  is_finite a = true -> is_finite b = true ->
  exists r,
    prints (add_sub_sub a b) r (unlines ["2"])
    /\ r = (if is_finite (double_sub a b) then zero else S754_nan)
    /\ double_eq r zero = is_finite (double_sub a b).
Proof.
  intros Ha Hb.
  exists (double_add (double_sub a b) (double_sub b a)).
  split; [apply prints_add_sub_sub |].
  assert (Hr : double_add (double_sub a b) (double_sub b a)
               = if is_finite (double_sub a b) then zero else S754_nan).
  { pose proof (double_sub_not_nan a b Ha Hb) as Hnan.
    destruct (double_sub_swap a b Ha Hb) as [-> | [-> ->]]; [| reflexivity].
    destruct (double_sub a b) as [s|s| |s m e] eqn:Hd.
    - apply (double_add_neg (S754_zero s)). reflexivity.
    - destruct s; reflexivity.
    - congruence.
    - apply (double_add_neg (S754_finite s m e)). reflexivity. }
  split; [exact Hr |].
  rewrite Hr. destruct (is_finite (double_sub a b)); reflexivity.
Qed.

(** The dichotomy at [DBL_MAX] and [-DBL_MAX], where [a - b] overflows. *)
Lemma cancellation_dichotomy_witness :
  is_finite DBL_MAX = true /\ is_finite (double_neg DBL_MAX) = true
  /\ exists r,
       prints (add_sub_sub DBL_MAX (double_neg DBL_MAX)) r (unlines ["2"])
       /\ r = (if is_finite (double_sub DBL_MAX (double_neg DBL_MAX))
               then zero else S754_nan)
       /\ double_eq r zero
          = is_finite (double_sub DBL_MAX (double_neg DBL_MAX)).
Proof.
  split; [vm_compute; reflexivity |].
  split; [vm_compute; reflexivity |].
  apply (cancellation_dichotomy DBL_MAX (double_neg DBL_MAX));
    vm_compute; reflexivity.
Defined.

(** X6: [add] is symmetric under a change of sign: for finite [x] and [y],
    [add(-x, -y) == -add(x, y)]; the two values are the same binary64
    number unless the sum cancels to zero, where the first is [+0]. *)
Theorem add_of_negations (x y : double) :
  is_finite x = true -> is_finite y = true ->
  exists r1 r2,
    prints (add (double_neg x) (double_neg y)) r1 (unlines ["2"])
    /\ prints (add x y) r2 (unlines ["2"])
    /\ double_eq r1 (double_neg r2) = true
    /\ (r1 = double_neg r2 \/ (r1 = zero /\ r2 = zero)).
Proof.
  intros Hx Hy.
  exists (double_add (double_neg x) (double_neg y)), (double_add x y).
  split; [apply prints_add |]. split; [apply prints_add |].
  destruct (double_add_neg_neg x y Hx Hy) as [H | [H2 H1]].
  - split; [| left; exact H].
    rewrite H. apply double_eq_refl.
    intros Hn. apply (double_add_not_nan x y Hx Hy).
    destruct (double_add x y); try discriminate Hn; reflexivity.
  - rewrite H1, H2. split; [reflexivity | right; split; reflexivity].
Qed.

(** The symmetry at [1.1] and [-1.1], whose sum cancels. *)
Lemma add_of_negations_witness :
  is_finite lit_1_1 = true /\ is_finite (double_neg lit_1_1) = true
  /\ exists r1 r2,
       prints (add (double_neg lit_1_1) (double_neg (double_neg lit_1_1))) r1
         (unlines ["2"])
       /\ prints (add lit_1_1 (double_neg lit_1_1)) r2 (unlines ["2"])
       /\ double_eq r1 (double_neg r2) = true
       /\ (r1 = double_neg r2 \/ (r1 = zero /\ r2 = zero)).
Proof.
  split; [vm_compute; reflexivity |].
  split; [vm_compute; reflexivity |].
  apply (add_of_negations lit_1_1 (double_neg lit_1_1));
    vm_compute; reflexivity.
Defined.


#[local] Hint Resolve prints_add prints_sub : prints.

(** X8: a call of [sub] can be moved across any other computation: with
    [c] run before or after it, the result and the text written are the
    same.  So the order in which the two arguments of
    [add(sub(a, b), sub(b, a))] are evaluated, which the language leaves
    open, does not show.  A call of [add] cannot be moved so: its line
    comes out before or after the text [s] another statement writes, and
    the two outputs differ unless [s] commutes with that line. *)
Theorem sub_moves_across {B C} (c : cpp B) (k : double -> B -> cpp C)
    (a b : double) (out : ostream) :
  (x ← sub a b; y ← c; k x y) out = (y ← c; x ← sub a b; k x y) out
  /\ (d2 ← sub b a; d1 ← sub a b; add d1 d2) out = add_sub_sub a b out
  /\ (forall s : string,
        unlines ["2"] +:+ s <> s +:+ unlines ["2"] ->
        (x ← add a b; write s;; mret x) out
        <> (write s;; x ← add a b; mret x) out).
Proof.
  split; [reflexivity |]. split; [reflexivity |].
  intros s Hs H.
  assert (H1 : prints (x ← add a b; write s;; mret x) (double_add a b)
                 (unlines ["2"] +:+ s +:+ EmptyString)) by run_body.
  assert (H2 : prints (write s;; x ← add a b; mret x) (double_add a b)
                 (s +:+ unlines ["2"] +:+ EmptyString)) by run_body.
  rewrite H1, H2, !app_empty_r in H. injection H as H.
  apply Hs. exact (String.app_inj out _ _ H).
Qed.

(** X9: [+0] is neutral for both functions up to the sign of zero:
    [add(x, +0)] and [sub(x, +0)] return [x] itself for every [x] other
    than [-0], NaN included; [add(-0, +0)] is [+0], and [sub(-0, +0)] is
    [-0].  So [add(x, 0.0) == x] and [sub(x, 0.0) == x] for every [x] that
    is not NaN. *)
Theorem zero_is_neutral (x : double) :
  exists r1 r2,
    prints (add x zero) r1 (unlines ["2"])
    /\ prints (sub x zero) r2 EmptyString
    /\ (x <> S754_zero true -> r1 = x)
    /\ (x = S754_zero true -> r1 = zero)
    /\ r2 = x
    /\ (x <> S754_nan -> double_eq r1 x = true /\ double_eq r2 x = true).
Proof.
  exists (double_add x zero), (double_sub x zero).
  split; [apply prints_add |]. split; [apply prints_sub |].
  assert (Hr2 : double_sub x zero = x)
    by (destruct x as [[]| | |]; reflexivity).
  assert (Hr1 : x <> S754_zero true -> double_add x zero = x)
    by (destruct x as [[]| | |]; intros H; try reflexivity; congruence).
  split; [exact Hr1 |]. split; [intros ->; reflexivity |].
  split; [exact Hr2 |].
  intros Hn. rewrite Hr2. split; [| apply double_eq_refl, Hn].
  destruct x as [[]|s| |s m e]; [reflexivity | ..];
    rewrite Hr1 by discriminate; apply double_eq_refl, Hn.
Qed.

(** ** Exact arithmetic on integers *)

Section Exactness.

Lemma iter_pos_nat {A} (f : A -> A) p : forall x,
  SpecFloat.iter_pos f p x = Nat.iter (Pos.to_nat p) f x.
Proof.
  induction p as [p IH|p IH|]; intros x; simpl SpecFloat.iter_pos.
  - rewrite !IH, Pos2Nat.inj_xI.
    replace (S (2 * Pos.to_nat p))%nat
      with (Pos.to_nat p + (Pos.to_nat p + 1))%nat by lia.
    now rewrite !Nat.iter_add.
  - rewrite !IH, Pos2Nat.inj_xO.
    replace (2 * Pos.to_nat p)%nat with (Pos.to_nat p + Pos.to_nat p)%nat by lia.
    now rewrite Nat.iter_add.
  - reflexivity.
Qed.

(** [shr] shifts [n] times, if [n] is positive. *)
Lemma shr_nat mrs e n :
  shr mrs e n = (Nat.iter (Z.to_nat n) shr_1 mrs, e + Z.max 0 n).
Proof.
  destruct n as [|p|p]; simpl shr.
  - now rewrite Z.add_0_r.
  - now rewrite iter_pos_nat.
  - now rewrite Z.add_0_r.
Qed.

(** [shl_align] shifts the mantissa left down to the smaller exponent. *)
Lemma shl_align_nat mx ex ex' :
  shl_align mx ex ex' = (Pos.shiftl_nat mx (Z.to_nat (ex - ex')), Z.min ex ex').
Proof.
  unfold shl_align.
  destruct (ex' - ex) as [|d|d] eqn:Hd.
  - replace (ex - ex') with 0 by lia. f_equal. lia.
  - replace (Z.to_nat (ex - ex')) with O by lia. f_equal. lia.
  - rewrite Pos2Nat.inj_iter.
    replace (Z.to_nat (ex - ex')) with (Pos.to_nat d) by lia.
    f_equal. lia.
Qed.

Lemma shiftl_nat_add q j k :
  Pos.shiftl_nat (Pos.shiftl_nat q j) k = Pos.shiftl_nat q (k + j).
Proof. induction k as [|k IH]; [reflexivity | simpl; now rewrite <- IH]. Qed.

Lemma shiftl_nat_Z q k : Z.pos (Pos.shiftl_nat q k) = Z.pos q * 2 ^ Z.of_nat k.
Proof.
  induction k as [|k IH]; [simpl; lia |].
  change (Pos.shiftl_nat q (S k)) with (xO (Pos.shiftl_nat q k)).
  rewrite Pos2Z.inj_xO, IH, Nat2Z.inj_succ, Z.pow_succ_r by lia. lia.
Qed.

Lemma digits2_pos_shiftl_nat q k :
  Z.pos (digits2_pos (Pos.shiftl_nat q k)) = Z.pos (digits2_pos q) + Z.of_nat k.
Proof.
  induction k as [|k IH]; [simpl; lia |].
  change (Pos.shiftl_nat q (S k)) with (xO (Pos.shiftl_nat q k)).
  simpl digits2_pos. rewrite Pos2Z.inj_succ, IH. lia.
Qed.

(** A number of [d] binary digits lies between [2^(d-1)] and [2^d]. *)
Lemma digits2_pos_bounds q :
  2 ^ (Z.pos (digits2_pos q) - 1) <= Z.pos q < 2 ^ Z.pos (digits2_pos q).
Proof.
  induction q as [q IH|q IH|]; simpl digits2_pos; [| |simpl; lia];
    rewrite Pos2Z.inj_succ;
    replace (Z.succ (Z.pos (digits2_pos q)) - 1)
      with (Z.succ (Z.pos (digits2_pos q) - 1)) by lia;
    rewrite !Z.pow_succ_r by lia; lia.
Qed.

(** Shifting right a mantissa that ends in zeros loses nothing: the shifts
    cancel against the zeros. *)
Lemma iter_shr_1_shiftl_nat q : forall n j,
  Nat.iter n shr_1 (Build_shr_record (Z.pos (Pos.shiftl_nat q j)) false false)
  = Nat.iter (n - j) shr_1
      (Build_shr_record (Z.pos (Pos.shiftl_nat q (j - n))) false false).
Proof.
  induction n as [|n IH]; intros j.
  - now rewrite Nat.sub_0_r.
  - destruct j as [|j]; [reflexivity |].
    rewrite Nat.iter_succ_r.
    change (Pos.shiftl_nat q (S j)) with (xO (Pos.shiftl_nat q j)).
    simpl shr_1. apply IH.
Qed.

(** The result of rounding depends on the number [q * 2^k * 2^e] only:
    trailing zeros of the mantissa can be moved into the exponent. *)
Lemma binary_round_shiftl_nat s q k e :
  binary_round prec emax s (Pos.shiftl_nat q k) e
  = binary_round prec emax s q (e + Z.of_nat k).
Proof.
  unfold binary_round. rewrite !shl_align_nat, digits2_pos_shiftl_nat.
  replace (Z.pos (digits2_pos q) + Z.of_nat k + e)
    with (Z.pos (digits2_pos q) + (e + Z.of_nat k)) by lia.
  set (fe := fexp prec emax (Z.pos (digits2_pos q) + (e + Z.of_nat k))).
  rewrite shiftl_nat_add.
  unfold binary_round_aux, shr_fexp, shr_record_of_loc, Zdigits2.
  rewrite !digits2_pos_shiftl_nat.
  replace (Z.pos (digits2_pos q) + Z.of_nat (Z.to_nat (e - fe) + k) + Z.min e fe)
    with (Z.pos (digits2_pos q) + (e + Z.of_nat k)) by lia.
  replace (Z.pos (digits2_pos q) + Z.of_nat (Z.to_nat (e + Z.of_nat k - fe))
           + Z.min (e + Z.of_nat k) fe)
    with (Z.pos (digits2_pos q) + (e + Z.of_nat k)) by lia.
  fold fe. rewrite !shr_nat.
  rewrite (iter_shr_1_shiftl_nat q (Z.to_nat (fe - Z.min e fe))),
          (iter_shr_1_shiftl_nat q (Z.to_nat (fe - Z.min (e + Z.of_nat k) fe))).
  replace (Z.to_nat (fe - Z.min e fe) - (Z.to_nat (e - fe) + k))%nat
    with (Z.to_nat (fe - Z.min (e + Z.of_nat k) fe)
          - Z.to_nat (e + Z.of_nat k - fe))%nat by lia.
  replace (Z.to_nat (e - fe) + k - Z.to_nat (fe - Z.min e fe))%nat
    with (Z.to_nat (e + Z.of_nat k - fe)
          - Z.to_nat (fe - Z.min (e + Z.of_nat k) fe))%nat by lia.
  replace (Z.min e fe + Z.max 0 (fe - Z.min e fe))
    with (Z.min (e + Z.of_nat k) fe
          + Z.max 0 (fe - Z.min (e + Z.of_nat k) fe)) by lia.
  reflexivity.
Qed.

(** Rounding leaves a mantissa and exponent of the format as they are. *)
Lemma binary_round_bounded s m e :
  bounded prec emax m e = true ->
  binary_round prec emax s m e = S754_finite s m e.
Proof.
  unfold bounded, canonical_mantissa.
  intros [Hc He]%andb_prop. apply Z.eqb_eq in Hc.
  unfold binary_round. rewrite Hc, shl_align_same.
  unfold binary_round_aux, shr_fexp, Zdigits2, shr_record_of_loc.
  rewrite Hc, Z.sub_diag. cbn [shr shr_m loc_of_shr_record round_nearest_even].
  rewrite Hc, Z.sub_diag. cbn [shr shr_m].
  now rewrite He.
Qed.


(** The mantissa of an integer below [2^53], shifted up to 53 digits, with
    the exponent that undoes the shift, is in the format. *)
Lemma bounded_int q :
  Z.pos q < 2 ^ 53 ->
  let j := Z.to_nat (53 - Z.pos (digits2_pos q)) in
  bounded prec emax (Pos.shiftl_nat q j) (- Z.of_nat j) = true.
Proof.
  intros Hq j.
  assert (Hd : Z.pos (digits2_pos q) <= 53).
  { destruct (Z.le_gt_cases (Z.pos (digits2_pos q)) 53) as [H|H]; [exact H |].
    pose proof (digits2_pos_bounds q) as [Hlo _].
    assert (2 ^ 53 <= 2 ^ (Z.pos (digits2_pos q) - 1))
      by (apply Z.pow_le_mono_r; lia).
    lia. }
  unfold bounded, canonical_mantissa.
  rewrite digits2_pos_shiftl_nat.
  apply andb_true_intro. split.
  - apply Z.eqb_eq. unfold fexp, emin, prec, emax. lia.
  - apply Z.leb_le. unfold prec, emax. lia.
Qed.

(** The conversion of an integer below [2^53] in absolute value. *)
Lemma double_of_int_pos s q :
  Z.pos q < 2 ^ 53 ->
  let j := Z.to_nat (53 - Z.pos (digits2_pos q)) in
  binary_round prec emax s q 0
  = S754_finite s (Pos.shiftl_nat q j) (- Z.of_nat j).
Proof.
  intros Hq j.
  pose proof (bounded_int q Hq) as Hb. cbv zeta in Hb. fold j in Hb.
  rewrite <- (binary_round_bounded s _ _ Hb).
  rewrite binary_round_shiftl_nat. f_equal. lia.
Qed.



Lemma double_of_int_is_finite m :
  Z.abs m < 2 ^ 53 -> finite64 (double_of_int m) = true.
Proof.
  intros Hm. unfold double_of_int, finite64.
  destruct m as [|p|p]; [reflexivity | |]; cbn [binary_normalize];
    rewrite (double_of_int_pos _ p) by (simpl in Hm; lia);
    apply (bounded_int p); simpl in Hm; lia.
Qed.


End Exactness.

(** X10: the conversion of an [int] to [double], as [main] applies it to
    [b], is exact: for a non-zero integer below [2^53] in absolute value
    the result is a finite binary64 number with the sign of the integer
    whose mantissa and exponent give back the integer; 0 becomes [+0]. *)
Theorem int_conversion_exact (m : Z) :
  Z.abs m < 2 ^ 53 ->
  finite64 (double_of_int m) = true
  /\ (m = 0 -> double_of_int m = zero)
  /\ (m <> 0 ->
      exists mm ee,
        double_of_int m = S754_finite (m <? 0) mm ee
        /\ ee <= 0 /\ Z.pos mm = Z.abs m * 2 ^ (- ee)).
Proof.
  intros Hm. split; [apply double_of_int_is_finite, Hm |].
  split; [intros ->; reflexivity |].
  intros Hm0. unfold double_of_int.
  destruct m as [|p|p]; [congruence | |]; cbn [binary_normalize];
    rewrite (double_of_int_pos _ p) by (simpl in Hm; lia);
    eexists _, _; (split; [reflexivity |]);
    (split; [lia |]); rewrite shiftl_nat_Z, Z.opp_involutive; reflexivity.
Qed.

(** The conversion of [b = 5]. *)
Lemma int_conversion_exact_witness :
  Z.abs 5 < 2 ^ 53
  /\ finite64 (double_of_int 5) = true
  /\ (5 = 0 -> double_of_int 5 = zero)
  /\ (5 <> 0 ->
      exists mm ee,
        double_of_int 5 = S754_finite (5 <? 0) mm ee
        /\ ee <= 0 /\ Z.pos mm = Z.abs 5 * 2 ^ (- ee)).
Proof.
  split; [vm_compute; reflexivity |].
  apply (int_conversion_exact 5). vm_compute. reflexivity.
Defined.


